(** * ApexMixedPrecisionPlugin: a shallow embedding

    Source: [pytorch_lightning/plugins/precision/apex_amp.py].

    The plugin is a thin coordinator between the trainer and the apex [amp]
    backend.  Everything it calls that lives outside the file (the [amp]
    module, the base-class hooks reached through [super()], the closure, the
    optimizer's [step], torch's schedulers) is an external collaborator: it is
    taken as a parameter acting on an abstract external state [X], where it
    may return or raise, and every call the plugin makes to it is recorded in
    a trace.  The attributes the plugin itself reads and writes
    ([self.amp_level], [self._connected], [trainer.lightning_module],
    [trainer.accelerator.optimizers]) are fields of the world, one world per
    plugin instance and its trainer; an attribute written before a later call
    raises stays written. *)

From stdpp Require Import gmap strings list pretty.

Local Open Scope string_scope.
Local Open Scope list_scope.

(** ** Python objects *)

(** A class is identified by its qualified name; an object carries the method
    resolution order of its class, most derived class first. *)
Definition PyClass := string.

Definition LBFGS : PyClass := "torch.optim.LBFGS".
Definition _LRScheduler : PyClass := "torch.optim.lr_scheduler._LRScheduler".
Definition ReduceLROnPlateau : PyClass := "torch.optim.lr_scheduler.ReduceLROnPlateau".

(** [isinstance(obj, cls)]: [cls] occurs in the MRO of the object's class. *)
Definition isinstance (mro : list PyClass) (cls : PyClass) : bool :=
  bool_decide (cls ∈ mro).

(** An optimizer object: its identity, its class and its truth value.
    [Optimizer] defines no [__eq__], so [==] on optimizers is identity; it is
    equality of these records.  [opt_bool] is [bool(optimizer)]: true for
    torch's own optimizers, which define neither [__bool__] nor [__len__];
    a subclass that defines one may be false. *)
Record Optimizer := { opt_id : nat; opt_mro : list PyClass; opt_bool : bool }.

#[global] Instance Optimizer_eq_dec : EqDecision Optimizer.
Proof. solve_decision. Defined.

(** [model: Union["pl.LightningModule", Module]]; only a LightningModule has
    the attribute [automatic_optimization]. *)
Inductive Model :=
| LightningModule (automatic_optimization : bool)
| TorchModule.

(** The value [optimizer or model.trainer.optimizers]: one optimizer, or the
    trainer's list of optimizers. *)
Inductive OptArg :=
| OneOptimizer (o : Optimizer)
| OptimizerList (l : list Optimizer).

Inductive Exn :=
| MisconfigurationException (msg : string)
| ExternalError (name : string).

Inductive Result (A : Type) :=
| Ok (a : A)
| Raise (e : Exn).

Arguments Ok {A} a.
Arguments Raise {A} e.

Section Plugin.

(** [X]: the state of the external collaborators; [Tensor]: loss values;
    [Any]: opaque Python values (keyword arguments, closure results,
    checkpoint entries, the scaler's state blob). *)
Context {X Tensor Any : Type}.

(** An external call: runs on the external state, returns or raises. *)
Definition Ext (A : Type) : Type := X -> Result A * X.

(** The object returned by [amp.scale_loss(...)], used in a [with]. *)
Record ContextManager := {
  __enter__ : Ext Tensor;
  __exit__ : option Exn -> Ext bool
}.

(** Calls made by the plugin to its collaborators. *)
Inductive Event :=
| CallBaseInit
| CallInitialize (model : Model) (optimizers : list Optimizer) (opt_level : string)
| CallBaseDispatch
| CallMasterParams (optimizer : Optimizer)
| CallScaleLoss (loss : Tensor) (opt : OptArg)
| CallEnter
| CallBaseBackward (model : Model) (loss : Tensor) (optimizer : option Optimizer) (args : Any)
| CallExit (exc : option Exn)
| CallClosure
| CallAfterClosure (model : Model) (optimizer : Optimizer) (optimizer_idx : Z)
| CallStep (optimizer : Optimizer) (kwargs : Any)
| CallStateDict
| CallLoadStateDict (blob : Any).

(** The collaborators the plugin is run against. *)
Record Externals := {
  (* super().__init__() *)
  base_init : Ext unit;
  (* amp.initialize(model, optimizers, opt_level=...) *)
  amp_initialize : Model -> list Optimizer -> string -> Ext (Model * list Optimizer);
  (* super().dispatch(trainer) *)
  base_dispatch : Ext unit;
  (* amp.master_params(optimizer) *)
  amp_master_params : Optimizer -> Ext Any;
  (* amp.scale_loss(loss, opt) *)
  amp_scale_loss : Tensor -> OptArg -> Ext ContextManager;
  (* super().backward(model, closure_loss, optimizer, args, kwargs) *)
  base_backward : Model -> Tensor -> option Optimizer -> Any -> Ext unit;
  (* self._after_closure(model, optimizer, optimizer_idx) *)
  _after_closure : Model -> Optimizer -> Z -> Ext unit;
  (* optimizer.step(kwargs) *)
  step : Optimizer -> Any -> Ext unit;
  (* amp.state_dict() *)
  amp_state_dict : Ext Any;
  (* amp.load_state_dict(blob) *)
  amp_load_state_dict : Any -> Ext unit
}.

(** The world: the plugin instance's attributes, the trainer's attributes the
    plugin touches, the external state and the trace (oldest call first). *)
Record World := {
  amp_level : string;
  _connected : bool;
  lightning_module : Model;
  accelerator_optimizers : list Optimizer;
  ext : X;
  trace : list Event
}.

(** ** A state and exception monad *)

Definition M (A : Type) : Type := World -> Result A * World.

Definition ret {A} (a : A) : M A := fun w => (Ok a, w).

Definition raise {A} (e : Exn) : M A := fun w => (Raise e, w).

Definition bind {A B} (m : M A) (k : A -> M B) : M B := fun w =>
  match m w with
  | (Ok a, w1) => k a w1
  | (Raise e, w1) => (Raise e, w1)
  end.

Definition set_ext (x : X) (w : World) : World :=
  {| amp_level := amp_level w; _connected := _connected w;
     lightning_module := lightning_module w;
     accelerator_optimizers := accelerator_optimizers w;
     ext := x; trace := trace w |}.

Definition log (ev : Event) (w : World) : World :=
  {| amp_level := amp_level w; _connected := _connected w;
     lightning_module := lightning_module w;
     accelerator_optimizers := accelerator_optimizers w;
     ext := ext w; trace := trace w ++ [ev] |}.

(** An external call: recorded, then run on the external state. *)
Definition call {A} (ev : Event) (f : Ext A) : M A := fun w =>
  let w1 := log ev w in
  let '(r, x) := f (ext w1) in (r, set_ext x w1).

Definition get {A} (proj : World -> A) : M A := fun w => (Ok (proj w), w).

Definition set_amp_level (v : string) : M unit := fun w =>
  (Ok tt, {| amp_level := v; _connected := _connected w;
             lightning_module := lightning_module w;
             accelerator_optimizers := accelerator_optimizers w;
             ext := ext w; trace := trace w |}).

Definition set_connected (v : bool) : M unit := fun w =>
  (Ok tt, {| amp_level := amp_level w; _connected := v;
             lightning_module := lightning_module w;
             accelerator_optimizers := accelerator_optimizers w;
             ext := ext w; trace := trace w |}).

Definition set_accelerator_optimizers (v : list Optimizer) : M unit := fun w =>
  (Ok tt, {| amp_level := amp_level w; _connected := _connected w;
             lightning_module := lightning_module w;
             accelerator_optimizers := v;
             ext := ext w; trace := trace w |}).

Notation "x <- m ;; k" := (bind m (fun x => k))
  (at level 100, m at next level, right associativity).
Notation "m ;;; k" := (bind m (fun _ => k))
  (at level 100, right associativity).

(** The [with] statement over a context manager, body of type [None]:
    [__enter__] is called; the body runs on its value; [__exit__] is called
    with no exception when the body returns and with the exception when it
    raises; a true result of [__exit__] swallows the exception. *)
Definition with_ (cm : ContextManager) (body : Tensor -> M unit) : M unit := fun w =>
  match call CallEnter (__enter__ cm) w with
  | (Raise e, w1) => (Raise e, w1)
  | (Ok v, w1) =>
      match body v w1 with
      | (Ok tt, w2) =>
          match call (CallExit None) (__exit__ cm None) w2 with
          | (Ok _, w3) => (Ok tt, w3)
          | (Raise e', w3) => (Raise e', w3)
          end
      | (Raise e, w2) =>
          match call (CallExit (Some e)) (__exit__ cm (Some e)) w2 with
          | (Ok true, w3) => (Ok tt, w3)
          | (Ok false, w3) => (Raise e, w3)
          | (Raise e', w3) => (Raise e', w3)
          end
      end
  end.

(** ** The plugin *)

(** [_APEX_AVAILABLE], from [pytorch_lightning.utilities]. *)
Variable _APEX_AVAILABLE : bool.

Variable env : Externals.

Definition missing_apex_message : string :=
  "You have asked for Apex AMP but you have not installed it."
  +:+ " Install `apex` using this guide: https://github.com/NVIDIA/apex".

Definition __init__ (amp_level : string) : M unit :=
  if negb _APEX_AVAILABLE then
    raise (MisconfigurationException missing_apex_message)
  else
    call CallBaseInit (base_init env) ;;;
    set_amp_level amp_level ;;;
    set_connected false.

Definition main_params (optimizer : Optimizer) : M Any :=
  call (CallMasterParams optimizer) (amp_master_params env optimizer).

Definition dispatch : M unit :=
  connected <- get _connected ;;
  (if negb connected then
     model <- get lightning_module ;;
     optimizers <- get accelerator_optimizers ;;
     level <- get amp_level ;;
     r <- call (CallInitialize model optimizers level)
               (amp_initialize env model optimizers level) ;;
     set_accelerator_optimizers (snd r) ;;;
     set_connected true
   else ret tt) ;;;
  call CallBaseDispatch (base_dispatch env).

(** [model.trainer.optimizers]: the trainer's [optimizers] property reads
    [accelerator.optimizers]; a plain [torch.nn.Module] has no [trainer]. *)
Definition trainer_optimizers (model : Model) : M (list Optimizer) :=
  match model with
  | LightningModule _ => get accelerator_optimizers
  | TorchModule => raise (ExternalError "AttributeError")
  end.

Definition backward (model : Model) (closure_loss : Tensor)
    (optimizer : option Optimizer) (args : Any) : M unit :=
  opt <- match optimizer with
         | Some o =>
             if opt_bool o then ret (OneOptimizer o)
             else optimizers <- trainer_optimizers model ;;
                  ret (OptimizerList optimizers)
         | None => optimizers <- trainer_optimizers model ;;
                   ret (OptimizerList optimizers)
         end ;;
  cm <- call (CallScaleLoss closure_loss opt) (amp_scale_loss env closure_loss opt) ;;
  with_ cm (fun closure_loss =>
    call (CallBaseBackward model closure_loss optimizer args)
         (base_backward env model closure_loss optimizer args)).

Definition lbfgs_message (optimizer_idx : Z) : string :=
  "apex AMP and the LBFGS optimizer are not compatible (optimizer "
  +:+ pretty optimizer_idx +:+ ").".

Definition optimizer_step (model : Model) (optimizer : Optimizer) (optimizer_idx : Z)
    (closure : Ext (option Any)) (kwargs : Any) : M unit :=
  if isinstance (opt_mro optimizer) LBFGS then
    raise (MisconfigurationException (lbfgs_message optimizer_idx))
  else
    closure_result <- call CallClosure closure ;;
    call (CallAfterClosure model optimizer optimizer_idx)
         (_after_closure env model optimizer optimizer_idx) ;;;
    let skipped_backward := bool_decide (closure_result = None) in
    if match model with
       | TorchModule => true
       | LightningModule automatic_optimization =>
           negb automatic_optimization || negb skipped_backward
       end
    then call (CallStep optimizer kwargs) (step env optimizer kwargs)
    else ret tt.

Definition on_load_checkpoint (checkpoint : gmap string Any) : M unit :=
  match checkpoint !! "amp_scaling_state" with
  | Some blob => call (CallLoadStateDict blob) (amp_load_state_dict env blob)
  | None => ret tt
  end.

(** The checkpoint dictionary is updated in place; the updated dictionary is
    the result here. *)
Definition on_save_checkpoint (checkpoint : gmap string Any) : M (gmap string Any) :=
  blob <- call CallStateDict (amp_state_dict env) ;;
  ret (<["amp_scaling_state" := blob]> checkpoint).

(** [dispatch] called [n] times in a row by the trainer. *)
Fixpoint dispatch_times (n : nat) : M unit :=
  match n with
  | O => ret tt
  | S k => dispatch ;;; dispatch_times k
  end.

End Plugin.

(** ** Scheduler repair

    [reinit_scheduler_properties] is a static method over torch's scheduler
    objects.  A scheduler is an object in a heap (the list holds references,
    the method updates the objects in place); torch's methods on it are the
    fields of [SchedulerAPI]. *)

Section SchedulerRepair.

Context {Sched SchedState : Type}.

Record SchedulerAPI := {
  (* scheduler.__class__.__mro__ *)
  sched_mro : Sched -> list PyClass;
  (* scheduler.optimizer *)
  sched_optimizer : Sched -> Optimizer;
  (* scheduler.state_dict() *)
  state_dict : Sched -> SchedState;
  (* cls.__init__(scheduler, optimizer) *)
  class_init : PyClass -> Sched -> Optimizer -> Sched;
  (* scheduler.load_state_dict(state) *)
  load_state_dict : Sched -> SchedState -> Sched
}.

(** An entry of the trainer's scheduler list: a dictionary whose key
    ["scheduler"] holds the scheduler object. *)
Record SchedulerConfig := { scheduler : nat }.

Definition Heap : Type := nat -> Sched.

Definition heap_set (h : Heap) (r : nat) (s : Sched) : Heap :=
  fun r' => if decide (r' = r) then s else h r'.

Variable api : SchedulerAPI.

(** [mro in (_LRScheduler, ReduceLROnPlateau)] *)
Definition is_base_scheduler (mro : PyClass) : bool :=
  bool_decide (mro = _LRScheduler) || bool_decide (mro = ReduceLROnPlateau).

(** [for i, mro in enumerate(scheduler.__class__.__mro__)]: [classes] is the
    whole tuple, [rest] what is left to visit from index [i]. *)
Fixpoint mro_loop (classes rest : list PyClass) (i : nat) (r : nat)
    (optimizer : Optimizer) (state : option SchedState) (h : Heap)
    : option SchedState * Heap :=
  match rest with
  | [] => (state, h)
  | mro :: rest' =>
      if is_base_scheduler mro then
        let state := state_dict api (h r) in
        let h1 := heap_set h r (class_init api (default mro (classes !! i)) (h r) optimizer) in
        let h2 := heap_set h1 r (load_state_dict api (h1 r) state) in
        (Some state, h2)
      else mro_loop classes rest' (S i) r optimizer state h
  end.

(** [for optimizer in optimizers] *)
Fixpoint optimizers_loop (optimizers : list Optimizer) (r : nat)
    (state : option SchedState) (h : Heap) : Heap :=
  match optimizers with
  | [] => h
  | optimizer :: rest =>
      let '(state, h) :=
        if bool_decide (sched_optimizer api (h r) = optimizer) then
          let classes := sched_mro api (h r) in
          mro_loop classes classes 0 r optimizer state h
        else (state, h) in
      match state with
      | Some _ => h
      | None => optimizers_loop rest r state h
      end
  end.

(** [for scheduler in schedulers] *)
Fixpoint reinit_scheduler_properties (optimizers : list Optimizer)
    (schedulers : list SchedulerConfig) (h : Heap) : Heap :=
  match schedulers with
  | [] => h
  | cfg :: rest =>
      reinit_scheduler_properties optimizers rest
        (optimizers_loop optimizers (scheduler cfg) None h)
  end.

(** The nearest recognized base scheduler class of an MRO. *)
Definition nearest_base (classes : list PyClass) : option PyClass :=
  head (filter (fun c => is_base_scheduler c = true) classes).

(** Snapshot, re-run the constructor of [base] against [o], restore. *)
Definition rebuild (base : PyClass) (o : Optimizer) (s : Sched) : Sched :=
  load_state_dict api (class_init api base s o) (state_dict api s).

(** What the loop over the optimizers amounts to on one scheduler object:
    rebuilt when its optimizer is listed and its class has a recognized base. *)
Definition repair (optimizers : list Optimizer) (s : Sched) : Sched :=
  if decide (sched_optimizer api s ∈ optimizers) then
    match nearest_base (sched_mro api s) with
    | Some base => rebuild base (sched_optimizer api s) s
    | None => s
    end
  else s.

(** How often a scheduler object is listed. *)
Definition occurrences (r : nat) (schedulers : list SchedulerConfig) : nat :=
  length (filter (fun cfg => scheduler cfg = r) schedulers).

(** What the plugin relies on from torch's schedulers, for an observation
    [step_count] of a scheduler's internal counter: the constructor binds the
    optimizer it is given; a state snapshot does not hold the optimizer;
    loading a snapshot restores the counter it was taken at; an object never
    changes its class. *)
Record scheduler_contract (step_count : Sched -> Z) : Prop := {
  init_binds : forall c s o, sched_optimizer api (class_init api c s o) = o;
  load_keeps_optimizer : forall s st,
    sched_optimizer api (load_state_dict api s st) = sched_optimizer api s;
  load_restores_count : forall s s',
    step_count (load_state_dict api s' (state_dict api s)) = step_count s;
  init_keeps_class : forall c s o, sched_mro api (class_init api c s o) = sched_mro api s;
  load_keeps_class : forall s st, sched_mro api (load_state_dict api s st) = sched_mro api s
}.

End SchedulerRepair.

(** ** A concrete set of collaborators

    A small scaler with a scale factor and a flag telling whether the
    gradients are currently scaled; losses, blobs and arguments are integers.
    The inner backward raises when its extra argument is not [0]. *)

Record DemoState := { scale_factor : Z; grads_scaled : bool }.

Definition demo_context_manager (loss : Z) : @ContextManager DemoState Z := {|
  __enter__ := fun x =>
    (Ok (loss * scale_factor x)%Z,
     {| scale_factor := scale_factor x; grads_scaled := true |});
  __exit__ := fun _ x =>
    (Ok false, {| scale_factor := scale_factor x; grads_scaled := false |})
|}.

Definition demo_scale_loss (loss : Z) (opt : OptArg)
    : @Ext DemoState (@ContextManager DemoState Z) :=
  fun x => (Ok (demo_context_manager loss), x).

Definition demo_wrap (o : Optimizer) : Optimizer :=
  {| opt_id := 100 + opt_id o; opt_mro := opt_mro o; opt_bool := opt_bool o |}.

Definition demo_env : @Externals DemoState Z Z := {|
  base_init := fun x => (Ok tt, x);
  amp_initialize := fun m opts _ x => (Ok (m, demo_wrap <$> opts), x);
  base_dispatch := fun x => (Ok tt, x);
  amp_master_params := fun _ x => (Ok 0%Z, x);
  amp_scale_loss := demo_scale_loss;
  base_backward := fun _ _ _ args x =>
    if bool_decide (args = 0%Z) then (Ok tt, x)
    else (Raise (ExternalError "RuntimeError"), x);
  _after_closure := fun _ _ _ x => (Ok tt, x);
  step := fun _ _ x => (Ok tt, x);
  amp_state_dict := fun x => (Ok (scale_factor x), x);
  amp_load_state_dict := fun b x =>
    (Ok tt, {| scale_factor := b; grads_scaled := grads_scaled x |})
|}.

Definition demo_unscaled (opt : OptArg) (x : DemoState) : Prop :=
  grads_scaled x = false.

(** A context manager written as a generator, as [contextlib.contextmanager]
    runs one that has no [try]/[finally] around its [yield]: the code after
    the [yield], which unscales the gradients, runs when the body returned;
    an exception of the body is thrown in at the [yield] and passes through,
    so nothing is unscaled and the exception is not swallowed. *)
Definition generator_context_manager (loss : Z) : @ContextManager DemoState Z := {|
  __enter__ := fun x =>
    (Ok (loss * scale_factor x)%Z,
     {| scale_factor := scale_factor x; grads_scaled := true |});
  __exit__ := fun exc x =>
    match exc with
    | None => (Ok false, {| scale_factor := scale_factor x; grads_scaled := false |})
    | Some _ => (Ok false, x)
    end
|}.

(** The collaborators of [demo_env] with that context manager. *)
Definition generator_env : @Externals DemoState Z Z := {|
  base_init := base_init demo_env;
  amp_initialize := amp_initialize demo_env;
  base_dispatch := base_dispatch demo_env;
  amp_master_params := amp_master_params demo_env;
  amp_scale_loss := fun loss _ x => (Ok (generator_context_manager loss), x);
  base_backward := base_backward demo_env;
  _after_closure := _after_closure demo_env;
  step := step demo_env;
  amp_state_dict := amp_state_dict demo_env;
  amp_load_state_dict := amp_load_state_dict demo_env
|}.

(** An optimizer of a user class that defines [__len__] and has length 0. *)
Definition falsy_optimizer (n : nat) : Optimizer :=
  {| opt_id := n; opt_mro := ["EmptyOptimizer"; "torch.optim.Optimizer"; "object"];
     opt_bool := false |}.

Definition sgd (n : nat) : Optimizer :=
  {| opt_id := n; opt_mro := ["torch.optim.SGD"; "torch.optim.Optimizer"; "object"];
     opt_bool := true |}.

Definition lbfgs (n : nat) : Optimizer :=
  {| opt_id := n; opt_mro := [LBFGS; "torch.optim.Optimizer"; "object"];
     opt_bool := true |}.

Definition demo_world : @World DemoState Z Z := {|
  amp_level := "O2";
  _connected := false;
  lightning_module := LightningModule true;
  accelerator_optimizers := [sgd 1; sgd 2];
  ext := {| scale_factor := 128; grads_scaled := false |};
  trace := []
|}.

(** A scheduler object with a step counter, and torch-like methods on it. *)
Record DemoSched := {
  demo_mro : list PyClass;
  demo_optimizer : Optimizer;
  last_epoch : Z
}.

Definition demo_api : @SchedulerAPI DemoSched Z := {|
  sched_mro := demo_mro;
  sched_optimizer := demo_optimizer;
  state_dict := last_epoch;
  class_init := fun _ s o =>
    {| demo_mro := demo_mro s; demo_optimizer := o; last_epoch := 0 |};
  load_state_dict := fun s st =>
    {| demo_mro := demo_mro s; demo_optimizer := demo_optimizer s; last_epoch := st |}
|}.

Definition step_lr : list PyClass :=
  ["torch.optim.lr_scheduler.StepLR"; _LRScheduler; "object"].

Definition demo_heap : @Heap DemoSched := fun r =>
  {| demo_mro := step_lr; demo_optimizer := sgd r; last_epoch := 7 |}.

(** ** Observations used in the statements *)

(** [needle] occurs in [hay]. *)
Definition occurs_in (needle hay : string) : Prop :=
  exists pre post, hay = pre +:+ needle +:+ post.

Definition is_initialize {Tensor Any} (ev : @Event Tensor Any) : bool :=
  match ev with
  | CallInitialize _ _ _ => true
  | _ => false
  end.

(** Number of [amp.initialize] calls in a trace. *)
Definition initialize_calls {Tensor Any} (tr : list (@Event Tensor Any)) : nat :=
  length (filter (fun ev => is_initialize ev = true) tr).

(** The exception, if any, an external call ended with. *)
Definition raised {A X} (r : Result A * X) : option Exn :=
  match fst r with
  | Ok _ => None
  | Raise e => Some e
  end.

(** The value of [optimizer or model.trainer.optimizers] in a world, for a
    LightningModule: the optimizer when it is given and true, the trainer's
    list when it is [None] or false. *)
Definition effective_optimizer {X Tensor Any} (optimizer : option Optimizer)
    (w : @World X Tensor Any) : OptArg :=
  match optimizer with
  | Some o =>
      if opt_bool o then OneOptimizer o
      else OptimizerList (accelerator_optimizers w)
  | None => OptimizerList (accelerator_optimizers w)
  end.

(** Number of calls of the closure, and of the optimizer's [step], in a
    trace. *)
Definition is_closure {Tensor Any} (ev : @Event Tensor Any) : bool :=
  match ev with
  | CallClosure => true
  | _ => false
  end.

Definition is_step {Tensor Any} (ev : @Event Tensor Any) : bool :=
  match ev with
  | CallStep _ _ => true
  | _ => false
  end.

Definition closure_calls {Tensor Any} (tr : list (@Event Tensor Any)) : nat :=
  length (filter (fun ev => is_closure ev = true) tr).

Definition step_calls {Tensor Any} (tr : list (@Event Tensor Any)) : nat :=
  length (filter (fun ev => is_step ev = true) tr).

(** ** Collaborators that fail on demand

    The scale factor of the state selects the call that raises. *)

Definition failing {A} (code : Z) (a : A) : @Ext DemoState A := fun x =>
  if bool_decide (scale_factor x = code)
  then (Raise (ExternalError "RuntimeError"), x)
  else (Ok a, x).

Definition faulty_context_manager (loss : Z) : @ContextManager DemoState Z := {|
  __enter__ := failing 3 loss;
  __exit__ := fun _ x =>
    if bool_decide (scale_factor x = 4%Z) then (Ok true, x)
    else if bool_decide (scale_factor x = 5%Z)
         then (Raise (ExternalError "OverflowError"), x)
         else (Ok false, x)
|}.

Definition faulty_env : @Externals DemoState Z Z := {|
  base_init := failing 10 tt;
  amp_initialize := fun m opts _ => failing 0 (m, demo_wrap <$> opts);
  base_dispatch := failing 1 tt;
  amp_master_params := fun _ => failing 11 0%Z;
  amp_scale_loss := fun loss _ => failing 2 (faulty_context_manager loss);
  base_backward := fun _ _ _ args x =>
    if bool_decide (args = 0%Z) then (Ok tt, x)
    else (Raise (ExternalError "RuntimeError"), x);
  _after_closure := fun _ _ _ => failing 6 tt;
  step := fun _ _ => failing 7 tt;
  amp_state_dict := fun x => failing 8 (scale_factor x) x;
  amp_load_state_dict := fun b => failing 9 tt
|}.

(** The world of [demo_world] with the given scale factor. *)
Definition faulty_world (code : Z) : @World DemoState Z Z := {|
  amp_level := "O2";
  _connected := false;
  lightning_module := LightningModule true;
  accelerator_optimizers := [sgd 1; sgd 2];
  ext := {| scale_factor := code; grads_scaled := false |};
  trace := []
|}.

(** * Properties *)

Section Properties.

Context {X Tensor Any : Type}.
Variable env : @Externals X Tensor Any.

Implicit Types (w : @World X Tensor Any) (model : Model) (optimizer : Optimizer).

(** ** The monad's operations *)

Lemma call_run {A} (ev : Event) (f : Ext A) w :
  call ev f w = (fst (f (ext w)), set_ext (snd (f (ext w))) (log ev w)).
Proof. unfold call. simpl. destruct (f (ext w)); reflexivity. Qed.

Lemma call_ok {A} (ev : Event) (f : Ext A) w a x :
  f (ext w) = (Ok a, x) -> call ev f w = (Ok a, set_ext x (log ev w)).
Proof. intros H. rewrite call_run, H. reflexivity. Qed.

(** ** Construction *)

(** C7: when apex is not available, constructing the plugin raises a
    MisconfigurationException at once, leaving the world as it was (no
    attribute is set, no collaborator is called); the message names apex and
    carries the installation guidance. *)
Theorem init_without_apex_raises (level : string) w :
  exists msg,
    __init__ false env level w = (Raise (MisconfigurationException msg), w) /\
    occurs_in "apex" msg /\
    occurs_in "Install `apex` using this guide: https://github.com/NVIDIA/apex" msg.
Proof.
  exists missing_apex_message. split; [reflexivity|]. split.
  - exists "You have asked for Apex AMP but you have not installed it. Install `",
           "` using this guide: https://github.com/NVIDIA/apex".
    reflexivity.
  - exists "You have asked for Apex AMP but you have not installed it. ", "".
    reflexivity.
Qed.

(** ** Optimizer step *)

(** C6: with an LBFGS optimizer (an instance of LBFGS or of a subclass),
    [optimizer_step] raises the MisconfigurationException naming the
    optimizer index and leaves the world untouched: the trace and the external
    state are as before, so neither the closure nor the step was called. *)
Theorem optimizer_step_lbfgs_raises model optimizer (optimizer_idx : Z)
    (closure : Ext (option Any)) (kwargs : Any) w :
  isinstance (opt_mro optimizer) LBFGS = true ->
  optimizer_step env model optimizer optimizer_idx closure kwargs w =
    (Raise (MisconfigurationException
       ("apex AMP and the LBFGS optimizer are not compatible (optimizer "
        +:+ pretty optimizer_idx +:+ ").")), w).
Proof.
  intros Hlbfgs. unfold optimizer_step. rewrite Hlbfgs. reflexivity.
Qed.

(** C2: for a LightningModule and an optimizer that is not LBFGS, when the
    closure and the post-closure hook return, the calls made are the closure,
    the hook and then the optimizer's step, except that the step is left out
    exactly when automatic optimization is on and the closure returned
    [None].  In manual optimization the step is called whatever the closure
    returned. *)
Theorem optimizer_step_gating (automatic_optimization : bool) optimizer
    (optimizer_idx : Z) (closure : Ext (option Any)) (kwargs : Any) w
    (closure_result : option Any) (x1 x2 : X) :
  isinstance (opt_mro optimizer) LBFGS = false ->
  closure (ext w) = (Ok closure_result, x1) ->
  _after_closure env (LightningModule automatic_optimization) optimizer optimizer_idx x1
    = (Ok tt, x2) ->
  let model := LightningModule automatic_optimization in
  let skipped := automatic_optimization && bool_decide (closure_result = None) in
  let w' := snd (optimizer_step env model optimizer optimizer_idx closure kwargs w) in
  trace w' =
    trace w ++ [CallClosure; CallAfterClosure model optimizer optimizer_idx]
            ++ (if skipped then [] else [CallStep optimizer kwargs]) /\
  ext w' = (if skipped then x2 else snd (step env optimizer kwargs x2)).
Proof.
  intros Hopt Hclosure Hafter model skipped w'.
  subst w' skipped model. unfold optimizer_step, bind. rewrite Hopt.
  rewrite (call_ok _ _ _ _ _ Hclosure).
  rewrite (call_ok _ _ _ () x2) by exact Hafter.
  destruct automatic_optimization, closure_result as [v|]; simpl;
    rewrite ?call_run; simpl; rewrite <- ?app_assoc; auto.
Qed.

(** C10: for a model that is a plain module, not a LightningModule, and an
    optimizer that is not LBFGS, when the closure and the post-closure hook
    return, the optimizer's step is called whatever the closure returned. *)
Theorem optimizer_step_plain_module optimizer (optimizer_idx : Z)
    (closure : Ext (option Any)) (kwargs : Any) w
    (closure_result : option Any) (x1 x2 : X) :
  isinstance (opt_mro optimizer) LBFGS = false ->
  closure (ext w) = (Ok closure_result, x1) ->
  _after_closure env TorchModule optimizer optimizer_idx x1 = (Ok tt, x2) ->
  let w' := snd (optimizer_step env TorchModule optimizer optimizer_idx closure kwargs w) in
  trace w' =
    trace w ++ [CallClosure; CallAfterClosure TorchModule optimizer optimizer_idx;
                CallStep optimizer kwargs] /\
  ext w' = snd (step env optimizer kwargs x2).
Proof.
  intros Hopt Hclosure Hafter w'. subst w'.
  unfold optimizer_step, bind. rewrite Hopt.
  rewrite (call_ok _ _ _ _ _ Hclosure).
  rewrite (call_ok _ _ _ () x2) by exact Hafter.
  simpl. rewrite call_run. simpl. rewrite <- !app_assoc. auto.
Qed.

(** ** Checkpoints *)

(** C9: loading a checkpoint without the key [amp_scaling_state] returns
    normally and leaves the world untouched: [amp.load_state_dict] is not
    called and the backend's state is as before. *)
Theorem on_load_checkpoint_missing_key (checkpoint : gmap string Any) w :
  checkpoint !! "amp_scaling_state" = None ->
  on_load_checkpoint env checkpoint w = (Ok tt, w).
Proof.
  intros Hkey. unfold on_load_checkpoint. rewrite Hkey. reflexivity.
Qed.

(** C3: whenever [amp.state_dict()] returns a blob, saving stores that blob
    under [amp_scaling_state], whatever the checkpoint held, and keeps every
    other entry.  For a backend whose [load_state_dict] makes the blob it is
    given its state, loading what a save produced from the empty checkpoint,
    in any later world, calls [amp.load_state_dict] on the saved blob and
    leaves the backend in a state whose [state_dict()] is that blob. *)
Theorem checkpoint_round_trip (checkpoint : gmap string Any) w (blob : Any) (x1 : X) :
  amp_state_dict env (ext w) = (Ok blob, x1) ->
  (forall x, exists x',
     amp_load_state_dict env blob x = (Ok tt, x') /\
     fst (amp_state_dict env x') = Ok blob) ->
  on_save_checkpoint env checkpoint w =
    (Ok (<["amp_scaling_state" := blob]> checkpoint), set_ext x1 (log CallStateDict w)) /\
  exists saved w1,
    on_save_checkpoint env ∅ w = (Ok saved, w1) /\
    forall w2, exists w3,
      on_load_checkpoint env saved w2 = (Ok tt, w3) /\
      trace w3 = trace w2 ++ [CallLoadStateDict blob] /\
      fst (amp_state_dict env (ext w3)) = Ok blob.
Proof.
  intros Hget Hload.
  assert (Hsave : forall c, on_save_checkpoint env c w =
            (Ok (<["amp_scaling_state" := blob]> c), set_ext x1 (log CallStateDict w))).
  { intros c. unfold on_save_checkpoint, bind.
    rewrite (call_ok _ _ _ _ _ Hget). reflexivity. }
  split; [apply Hsave|].
  eexists _, _. split; [apply Hsave|].
  intros w2. destruct (Hload (ext w2)) as (x' & Hl & Hs).
  exists (set_ext x' (log (CallLoadStateDict blob) w2)).
  unfold on_load_checkpoint. rewrite lookup_insert_eq.
  rewrite (call_ok _ _ _ _ _ Hl). auto.
Qed.

(** ** Backward *)

Lemma with_run (cm : ContextManager) (body : Tensor -> M unit) w (v : Tensor) (x : X) :
  __enter__ cm (ext w) = (Ok v, x) ->
  let w1 := set_ext x (log CallEnter w) in
  let exc := raised (body v w1) in
  let w2 := snd (body v w1) in
  snd (with_ cm body w) =
    set_ext (snd (__exit__ cm exc (ext w2))) (log (CallExit exc) w2).
Proof.
  intros Henter w1 exc w2. subst w1 exc w2. unfold with_.
  rewrite (call_ok _ _ _ _ _ Henter).
  destruct (body v _) as [[[]|e] w2]; unfold raised; simpl;
    rewrite call_run; simpl.
  - destruct (__exit__ cm None (ext w2)) as [[b|e'] x3]; reflexivity.
  - destruct (__exit__ cm (Some e) (ext w2)) as [[[|]|e'] x3]; reflexivity.
Qed.

(** C4, as the code has it: once [amp.scale_loss] has returned its context
    manager and [__enter__] has returned the scaled loss, [backward] calls the
    inner backward with the scaled loss and then, whether the inner backward
    returned or raised, calls [__exit__] (with the exception, if any) as its
    last call; the backend is left in the state [__exit__] leaves it in.  The
    plugin unscales nothing itself: whether the gradients end unscaled is
    what [__exit__] does on that path. *)
Theorem backward_releases_scope
    (automatic_optimization : bool) (closure_loss : Tensor)
    (optimizer : option Optimizer) (args : Any) w
    (cm : ContextManager) (x1 : X) (scaled_loss : Tensor) (x2 : X) :
  let model := LightningModule automatic_optimization in
  let opt := effective_optimizer optimizer w in
  amp_scale_loss env closure_loss opt (ext w) = (Ok cm, x1) ->
  __enter__ cm x1 = (Ok scaled_loss, x2) ->
  let inner := base_backward env model scaled_loss optimizer args x2 in
  let w' := snd (backward env model closure_loss optimizer args w) in
  trace w' =
    trace w ++ [CallScaleLoss closure_loss opt; CallEnter;
                CallBaseBackward model scaled_loss optimizer args;
                CallExit (raised inner)] /\
  ext w' = snd (__exit__ cm (raised inner) (snd inner)).
Proof.
  intros model opt Hscale Henter inner w'.
  assert (Hw' : w' =
    set_ext (snd (__exit__ cm (raised inner) (snd inner)))
      (log (CallExit (raised inner))
         (log (CallBaseBackward model scaled_loss optimizer args)
            (log CallEnter (log (CallScaleLoss closure_loss opt) w))))).
  { subst w'. unfold backward, bind.
    assert (Hopt : forall (k : OptArg -> M unit),
              (let (r, w1) :=
                 match optimizer with
                 | Some o =>
                     if opt_bool o then ret (OneOptimizer o)
                     else bind (trainer_optimizers model)
                            (fun optimizers => ret (OptimizerList optimizers))
                 | None => bind (trainer_optimizers model)
                             (fun optimizers => ret (OptimizerList optimizers))
                 end w in
               match r with Ok a => k a w1 | Raise e => (Raise e, w1) end) = k opt w).
    { intros k. subst opt. unfold effective_optimizer.
      destruct optimizer as [o|]; [destruct (opt_bool o)|]; reflexivity. }
    rewrite Hopt. rewrite (call_ok _ _ _ _ _ Hscale).
    rewrite (with_run cm _ _ scaled_loss x2) by exact Henter.
    rewrite call_run. unfold raised. simpl. reflexivity. }
  rewrite Hw'. simpl. split.
  - rewrite <- !app_assoc. reflexivity.
  - reflexivity.
Qed.

(** C5, as the code has it: for a LightningModule, the first call [backward]
    makes is [amp.scale_loss] on the loss and on the value of
    [optimizer or model.trainer.optimizers]: the explicit optimizer when one
    is given and is true, and otherwise, for [None] and for an optimizer
    object that is false, the trainer's whole list of optimizers. *)
Theorem backward_scale_loss_optimizer (automatic_optimization : bool)
    (closure_loss : Tensor) (optimizer : option Optimizer) (args : Any) w :
  exists rest,
    trace (snd (backward env (LightningModule automatic_optimization)
                  closure_loss optimizer args w)) =
      trace w ++
        CallScaleLoss closure_loss
          (match optimizer with
           | Some o =>
               if opt_bool o then OneOptimizer o
               else OptimizerList (accelerator_optimizers w)
           | None => OptimizerList (accelerator_optimizers w)
           end) :: rest.
Proof.
  set (opt := match optimizer with
              | Some o =>
                  if opt_bool o then OneOptimizer o
                  else OptimizerList (accelerator_optimizers w)
              | None => OptimizerList (accelerator_optimizers w)
              end).
  assert (Hrun : backward env (LightningModule automatic_optimization)
                   closure_loss optimizer args w =
                 bind (call (CallScaleLoss closure_loss opt)
                            (amp_scale_loss env closure_loss opt))
                   (fun cm => with_ cm (fun closure_loss =>
                      call (CallBaseBackward (LightningModule automatic_optimization)
                              closure_loss optimizer args)
                           (base_backward env (LightningModule automatic_optimization)
                              closure_loss optimizer args))) w).
  { subst opt. unfold backward, bind.
    destruct optimizer as [o|]; [destruct (opt_bool o)|]; reflexivity. }
  rewrite Hrun. unfold bind. rewrite call_run.
  destruct (amp_scale_loss env closure_loss opt (ext w)) as [[cm|e] x1]; simpl.
  - destruct (__enter__ cm x1) as [[v|e] x2] eqn:Henter.
    + rewrite (with_run cm _ _ v x2) by exact Henter.
      rewrite call_run. simpl. rewrite <- !app_assoc. eexists. reflexivity.
    + unfold with_. rewrite call_run. simpl. rewrite Henter. simpl.
      rewrite <- app_assoc. eexists. reflexivity.
  - exists []. reflexivity.
Qed.

(** ** Dispatch *)

Lemma init_ok (apex : bool) (level : string) w0 w :
  __init__ apex env level w0 = (Ok tt, w) ->
  _connected w = false /\ amp_level w = level /\
  lightning_module w = lightning_module w0 /\
  accelerator_optimizers w = accelerator_optimizers w0.
Proof.
  unfold __init__, bind. destruct apex; simpl; [|discriminate].
  rewrite call_run.
  destruct (base_init env (ext w0)) as [[[]|e] x]; simpl; [|discriminate].
  intros [= <-]. auto.
Qed.

Lemma dispatch_connected w :
  _connected w = true ->
  dispatch env w =
    (fst (base_dispatch env (ext w)),
     set_ext (snd (base_dispatch env (ext w))) (log CallBaseDispatch w)).
Proof.
  intros Hc. unfold dispatch, bind, get. rewrite Hc. simpl.
  apply call_run.
Qed.

Lemma dispatch_first w w' :
  _connected w = false ->
  dispatch env w = (Ok tt, w') ->
  exists m opts x1,
    amp_initialize env (lightning_module w) (accelerator_optimizers w)
      (amp_level w) (ext w) = (Ok (m, opts), x1) /\
    _connected w' = true /\
    accelerator_optimizers w' = opts /\
    trace w' =
      trace w ++ [CallInitialize (lightning_module w) (accelerator_optimizers w)
                    (amp_level w); CallBaseDispatch].
Proof.
  intros Hc. unfold dispatch, bind, get. rewrite Hc. simpl.
  rewrite call_run.
  destruct (amp_initialize env _ _ _ (ext w)) as [[[m opts]|e] x1]; simpl;
    [|discriminate].
  rewrite call_run. simpl.
  destruct (base_dispatch env x1) as [[[]|e] x2]; simpl; [|discriminate].
  intros [= <-]. exists m, opts, x1. simpl. rewrite <- app_assoc. auto.
Qed.

Lemma dispatch_times_connected (n : nat) : forall w w',
  _connected w = true ->
  dispatch_times env n w = (Ok tt, w') ->
  _connected w' = true /\
  accelerator_optimizers w' = accelerator_optimizers w /\
  trace w' = trace w ++ replicate n CallBaseDispatch.
Proof.
  induction n as [|n IH]; intros w w' Hc; simpl.
  - intros [= <-]. rewrite app_nil_r. auto.
  - unfold bind. rewrite (dispatch_connected w Hc).
    destruct (base_dispatch env (ext w)) as [[[]|e] x]; simpl; [|discriminate].
    intros Hrest. apply IH in Hrest; [|exact Hc].
    destruct Hrest as (H1 & H2 & H3). simpl in *.
    rewrite H3, <- app_assoc. auto.
Qed.

Lemma initialize_calls_app (tr1 tr2 : list (@Event Tensor Any)) :
  initialize_calls (tr1 ++ tr2) = initialize_calls tr1 + initialize_calls tr2.
Proof. unfold initialize_calls. rewrite filter_app, length_app. reflexivity. Qed.

Lemma initialize_calls_base_dispatch (n : nat) :
  initialize_calls (replicate n (@CallBaseDispatch Tensor Any)) = 0.
Proof. induction n as [|n IH]; [reflexivity|exact IH]. Qed.

Lemma initialize_calls_initialize model (optimizers : list Optimizer)
    (level : string) (tr : list (@Event Tensor Any)) :
  initialize_calls (CallInitialize model optimizers level :: tr) =
    S (initialize_calls tr).
Proof. reflexivity. Qed.

(** C1: on a plugin that has just been constructed the flag is false.  When
    [dispatch] is then called n+1 times and every call returns, the calls it
    made are one [amp.initialize] (on the trainer's module and optimizers and
    the plugin's level) followed by n+1 base dispatches, so [amp.initialize]
    was called exactly once; the flag is true; and the trainer's optimizers
    are the list that [amp.initialize] returned, for every n.  A dispatch on
    a connected plugin never clears the flag, whatever its outcome. *)
Theorem dispatch_initializes_once (apex : bool) (level : string) (n : nat) w0 w w' :
  __init__ apex env level w0 = (Ok tt, w) ->
  dispatch_times env (S n) w = (Ok tt, w') ->
  _connected w = false /\
  _connected w' = true /\
  (exists m opts x1,
     amp_initialize env (lightning_module w) (accelerator_optimizers w) level (ext w)
       = (Ok (m, opts), x1) /\
     accelerator_optimizers w' = opts) /\
  trace w' =
    trace w ++ CallInitialize (lightning_module w) (accelerator_optimizers w) level
            :: replicate (S n) CallBaseDispatch /\
  initialize_calls (trace w') = S (initialize_calls (trace w)) /\
  (forall v, _connected v = true -> _connected (snd (dispatch env v)) = true).
Proof.
  intros Hinit Hrun.
  destruct (init_ok _ _ _ _ Hinit) as (Hc & Hlevel & _ & _).
  simpl in Hrun. unfold bind in Hrun.
  destruct (dispatch env w) as [[[]|e] w1] eqn:Hfirst; [|discriminate].
  destruct (dispatch_first _ _ Hc Hfirst) as (m & opts & x1 & Hi & Hc1 & Ho1 & Ht1).
  destruct (dispatch_times_connected n _ _ Hc1 Hrun) as (Hc' & Ho' & Ht').
  rewrite Hlevel in Hi, Ht1.
  assert (Htrace : trace w' =
            trace w ++ CallInitialize (lightning_module w) (accelerator_optimizers w) level
                    :: replicate (S n) CallBaseDispatch).
  { rewrite Ht', Ht1, <- app_assoc. reflexivity. }
  split; [exact Hc|]. split; [exact Hc'|]. split.
  { exists m, opts, x1. split; [exact Hi|]. rewrite Ho'. exact Ho1. }
  split; [exact Htrace|]. split.
  - rewrite Htrace, initialize_calls_app, initialize_calls_initialize,
      initialize_calls_base_dispatch.
    lia.
  - intros v Hv. rewrite (dispatch_connected v Hv). exact Hv.
Qed.

End Properties.

(** ** Scheduler repair *)

Section SchedulerProperties.

Context {Sched SchedState : Type}.
Variable api : @SchedulerAPI Sched SchedState.

Implicit Types (h : @Heap Sched) (r : nat) (s : Sched).

Lemma heap_set_eq h r s : heap_set h r s r = s.
Proof. unfold heap_set. rewrite decide_True; reflexivity. Qed.

Lemma heap_set_ne h r r' s : r' <> r -> heap_set h r s r' = h r'.
Proof. intros Hne. unfold heap_set. rewrite decide_False; [reflexivity|exact Hne]. Qed.

Lemma nearest_base_cons (c : PyClass) (classes : list PyClass) :
  nearest_base (c :: classes) =
    if is_base_scheduler c then Some c else nearest_base classes.
Proof.
  unfold nearest_base. rewrite filter_cons.
  destruct (is_base_scheduler c) eqn:Hc.
  - rewrite decide_True by reflexivity. reflexivity.
  - rewrite decide_False by discriminate. reflexivity.
Qed.

(** The scan of the MRO stops at the nearest recognized base class and
    rebuilds the scheduler there; with no such class it changes nothing. *)
Lemma mro_loop_run (pre rest : list PyClass) r (optimizer : Optimizer)
    (state : option SchedState) h :
  mro_loop api (pre ++ rest) rest (length pre) r optimizer state h =
    match nearest_base rest with
    | Some base =>
        (Some (state_dict api (h r)),
         heap_set (heap_set h r (class_init api base (h r) optimizer)) r
           (rebuild api base optimizer (h r)))
    | None => (state, h)
    end.
Proof.
  revert pre. induction rest as [|mro rest IH]; intros pre; [reflexivity|].
  simpl. rewrite nearest_base_cons.
  destruct (is_base_scheduler mro).
  - rewrite list_lookup_middle by reflexivity. simpl.
    rewrite heap_set_eq. reflexivity.
  - specialize (IH (pre ++ [mro])).
    rewrite <- app_assoc, length_app in IH. simpl in IH.
    rewrite Nat.add_1_r in IH. exact IH.
Qed.

Lemma optimizers_loop_run (optimizers : list Optimizer) r h r' :
  optimizers_loop api optimizers r None h r' =
    if decide (r' = r) then repair api optimizers (h r) else h r'.
Proof.
  unfold repair. induction optimizers as [|optimizer rest IH]; cbn [optimizers_loop].
  - destruct (decide (r' = r)) as [->|]; [|reflexivity].
    rewrite decide_False by apply not_elem_of_nil. reflexivity.
  - destruct (decide (sched_optimizer api (h r) = optimizer)) as [Heq|Hne].
    + rewrite bool_decide_eq_true_2 by exact Heq.
      rewrite (mro_loop_run [] (sched_mro api (h r))).
      assert (Hin : sched_optimizer api (h r) ∈ optimizer :: rest)
        by (rewrite Heq; left).
      destruct (nearest_base (sched_mro api (h r))) as [base|] eqn:Hbase.
      * destruct (decide (r' = r)) as [->|Hr].
        -- rewrite decide_True by exact Hin. rewrite Heq. apply heap_set_eq.
        -- rewrite !heap_set_ne by exact Hr. reflexivity.
      * rewrite IH. destruct (decide (r' = r)); [|reflexivity].
        rewrite (decide_True _ _ Hin).
        destruct (decide (_ ∈ rest)); reflexivity.
    + rewrite bool_decide_eq_false_2 by exact Hne. rewrite IH.
      destruct (decide (r' = r)); [|reflexivity].
      destruct (decide (sched_optimizer api (h r) ∈ rest)) as [Hin|Hnin].
      * rewrite decide_True by (right; exact Hin). reflexivity.
      * rewrite decide_False; [reflexivity|].
        intros Hin. apply elem_of_cons in Hin as [Hin|Hin]; [|exact (Hnin Hin)].
        exact (Hne Hin).
Qed.

Lemma reinit_scheduler_properties_run (optimizers : list Optimizer)
    (schedulers : list SchedulerConfig) : forall h r,
  reinit_scheduler_properties api optimizers schedulers h r =
    Nat.iter (occurrences r schedulers) (repair api optimizers) (h r).
Proof.
  induction schedulers as [|cfg rest IH]; intros h r; [reflexivity|].
  simpl. rewrite IH, optimizers_loop_run. unfold occurrences.
  rewrite filter_cons. destruct (decide (scheduler cfg = r)) as [Heq|Hne].
  - rewrite decide_True by (symmetry; exact Heq). simpl.
    rewrite <- Heq. rewrite <- Nat.iter_succ_r. reflexivity.
  - rewrite decide_False by (intros ->; exact (Hne eq_refl)). reflexivity.
Qed.

Lemma occurrences_pos r (schedulers : list SchedulerConfig) :
  r ∈ scheduler <$> schedulers -> 1 <= occurrences r schedulers.
Proof.
  unfold occurrences. induction schedulers as [|cfg rest IH]; simpl.
  - intros H. apply elem_of_nil in H. destruct H.
  - intros H. rewrite filter_cons. apply elem_of_cons in H as [->|H].
    + rewrite decide_True by reflexivity. simpl. lia.
    + specialize (IH H). destruct (decide (scheduler cfg = r)); simpl; lia.
Qed.

(** C8: under the contract of torch's schedulers, a scheduler listed in
    [schedulers] whose optimizer is one of [optimizers] and whose class has a
    recognized base class is rebuilt once per listing: its state is
    snapshotted, the constructor of the nearest recognized base class is run
    on it against that optimizer and the snapshot is loaded back.  Afterwards
    its step count is what it was and its optimizer is the matching
    optimizer. *)
Theorem reinit_scheduler_properties_rebuilds (step_count : Sched -> Z)
    (optimizers : list Optimizer) (schedulers : list SchedulerConfig) h r
    (base : PyClass) :
  scheduler_contract api step_count ->
  r ∈ scheduler <$> schedulers ->
  sched_optimizer api (h r) ∈ optimizers ->
  nearest_base (sched_mro api (h r)) = Some base ->
  let o := sched_optimizer api (h r) in
  let h' := reinit_scheduler_properties api optimizers schedulers h in
  1 <= occurrences r schedulers /\
  h' r = Nat.iter (occurrences r schedulers) (rebuild api base o) (h r) /\
  step_count (h' r) = step_count (h r) /\
  sched_optimizer api (h' r) = o.
Proof.
  intros Hapi Hlisted Hmatch Hbase o h'.
  split; [apply occurrences_pos; exact Hlisted|].
  subst h'. rewrite reinit_scheduler_properties_run.
  assert (Hstep : forall s, sched_optimizer api s = o -> sched_mro api s = sched_mro api (h r) ->
            repair api optimizers s = rebuild api base o s /\
            sched_optimizer api (rebuild api base o s) = o /\
            sched_mro api (rebuild api base o s) = sched_mro api (h r) /\
            step_count (rebuild api base o s) = step_count s).
  { intros s Ho Hm. unfold repair. rewrite Ho, Hm, Hbase.
    rewrite decide_True by exact Hmatch. unfold rebuild.
    rewrite (load_keeps_optimizer _ _ Hapi), (init_binds _ _ Hapi).
    rewrite (load_keeps_class _ _ Hapi), (init_keeps_class _ _ Hapi).
    rewrite (load_restores_count _ _ Hapi). auto. }
  induction (occurrences r schedulers) as [|k IH]; simpl; [auto|].
  destruct IH as (Heq & Hc & Ho).
  assert (Hm : sched_mro api (Nat.iter k (rebuild api base o) (h r)) = sched_mro api (h r)).
  { clear Heq Hc Ho. induction k as [|k IHk]; simpl; [reflexivity|].
    unfold rebuild at 1.
    rewrite (load_keeps_class _ _ Hapi), (init_keeps_class _ _ Hapi). exact IHk. }
  rewrite Heq in Hc, Ho |- *.
  destruct (Hstep _ Ho Hm) as (H1 & H2 & H3 & H4).
  rewrite H1. split; [reflexivity|]. split; [|exact H2].
  rewrite H4. exact Hc.
Qed.

End SchedulerProperties.

(** * The properties on the concrete collaborators *)

Lemma optimizer_step_lbfgs_raises_witness :
  isinstance (opt_mro (lbfgs 3)) LBFGS = true /\
  optimizer_step demo_env (LightningModule true) (lbfgs 3) 1
      (fun x => (Ok (Some 5%Z), x)) 0%Z demo_world =
    (Raise (MisconfigurationException
       "apex AMP and the LBFGS optimizer are not compatible (optimizer 1)."),
     demo_world).
Proof.
  split; [reflexivity|].
  exact (optimizer_step_lbfgs_raises demo_env (LightningModule true) (lbfgs 3) 1
           (fun x => (Ok (Some 5%Z), x)) 0%Z demo_world eq_refl).
Defined.

Lemma dispatch_initializes_once_witness :
  let w := snd (__init__ true demo_env "O2" demo_world) in
  let w' := snd (dispatch_times demo_env 3 w) in
  _connected w' = true /\
  accelerator_optimizers w' = [demo_wrap (sgd 1); demo_wrap (sgd 2)] /\
  initialize_calls (trace w') = 1.
Proof.
  intros w w'.
  destruct (dispatch_initializes_once demo_env true "O2" 2 demo_world w w'
              eq_refl eq_refl)
    as (_ & Hc & (m & opts & x1 & Hi & Ho) & _ & Hn & _).
  split; [exact Hc|]. split; [|exact Hn].
  rewrite Ho. injection Hi as _ <- _. reflexivity.
Defined.

Lemma optimizer_step_gating_witness :
  let w' := snd (optimizer_step demo_env (LightningModule true) (sgd 1) 0
                   (fun x => (Ok None, x)) 0%Z demo_world) in
  trace w' = [CallClosure; CallAfterClosure (LightningModule true) (sgd 1) 0] /\
  ext w' = ext demo_world.
Proof.
  exact (optimizer_step_gating demo_env true (sgd 1) 0 (fun x => (Ok None, x)) 0%Z
           demo_world None (ext demo_world) (ext demo_world)
           eq_refl eq_refl eq_refl).
Defined.

Lemma optimizer_step_plain_module_witness :
  let w' := snd (optimizer_step demo_env TorchModule (sgd 1) 0
                   (fun x => (Ok None, x)) 0%Z demo_world) in
  trace w' = [CallClosure; CallAfterClosure TorchModule (sgd 1) 0;
              CallStep (sgd 1) 0%Z] /\
  ext w' = ext demo_world.
Proof.
  exact (optimizer_step_plain_module demo_env (sgd 1) 0 (fun x => (Ok None, x)) 0%Z
           demo_world None (ext demo_world) (ext demo_world)
           eq_refl eq_refl eq_refl).
Defined.

Lemma on_load_checkpoint_missing_key_witness :
  on_load_checkpoint demo_env {["epoch" := 4%Z]} demo_world = (Ok tt, demo_world).
Proof.
  apply on_load_checkpoint_missing_key. reflexivity.
Defined.

Lemma checkpoint_round_trip_witness :
  exists saved w1,
    on_save_checkpoint demo_env ∅ demo_world = (Ok saved, w1) /\
    forall w2, exists w3,
      on_load_checkpoint demo_env saved w2 = (Ok tt, w3) /\
      trace w3 = trace w2 ++ [CallLoadStateDict 128%Z] /\
      fst (amp_state_dict demo_env (ext w3)) = Ok 128%Z.
Proof.
  refine (proj2 (checkpoint_round_trip demo_env ∅ demo_world 128%Z (ext demo_world)
                   eq_refl _)).
  intros x. eexists. split; reflexivity.
Defined.

Lemma backward_releases_scope_witness :
  let opt := OneOptimizer (sgd 1) in
  let r := backward demo_env (LightningModule true) 3%Z (Some (sgd 1)) 1%Z demo_world in
  fst r = Raise (ExternalError "RuntimeError") /\
  trace (snd r) =
    [CallScaleLoss 3%Z opt; CallEnter;
     CallBaseBackward (LightningModule true) 384%Z (Some (sgd 1)) 1%Z;
     CallExit (Some (ExternalError "RuntimeError"))] /\
  ext (snd r) = {| scale_factor := 128; grads_scaled := false |}.
Proof.
  intros opt r. split; [reflexivity|].
  exact (backward_releases_scope demo_env true 3%Z (Some (sgd 1)) 1%Z
           demo_world (demo_context_manager 3) (ext demo_world) 384%Z
           {| scale_factor := 128; grads_scaled := true |}
           eq_refl eq_refl).
Defined.

(** C4, as the claim has it, fails: with a backend whose context manager is
    a generator that unscales after its [yield], the gradients are unscaled
    when the inner backward returns (extra argument [0]) but are still scaled
    after [backward] when the inner backward raises (extra argument [1]),
    although [__exit__] was called on both paths. *)
Lemma backward_unscaled_counterexample :
  let opt := OneOptimizer (sgd 1) in
  let run := fun args : Z =>
    snd (backward generator_env (LightningModule true) 3%Z (Some (sgd 1)) args
           demo_world) in
  demo_unscaled opt (ext (run 0%Z)) /\
  last (trace (run 1%Z)) = Some (CallExit (Some (ExternalError "RuntimeError"))) /\
  ~ demo_unscaled opt (ext (run 1%Z)).
Proof.
  intros opt run. split; [reflexivity|]. split; [reflexivity|].
  intros H. vm_compute in H. discriminate H.
Qed.

(** An explicit optimizer that is false: [amp.scale_loss] gets the trainer's
    list, the inner backward still gets the optimizer. *)
Example backward_falsy_optimizer :
  trace (snd (backward demo_env (LightningModule true) 3%Z
                (Some (falsy_optimizer 9)) 0%Z demo_world)) =
    [CallScaleLoss 3%Z (OptimizerList [sgd 1; sgd 2]); CallEnter;
     CallBaseBackward (LightningModule true) 384%Z (Some (falsy_optimizer 9)) 0%Z;
     CallExit None].
Proof. reflexivity. Qed.

Lemma reinit_scheduler_properties_rebuilds_witness :
  let h' := reinit_scheduler_properties demo_api [sgd 1; sgd 2]
              [{| scheduler := 1 |}] demo_heap in
  h' 1 = rebuild demo_api _LRScheduler (sgd 1) (demo_heap 1) /\
  last_epoch (h' 1) = 7%Z /\
  demo_optimizer (h' 1) = sgd 1.
Proof.
  intros h'.
  assert (Hapi : scheduler_contract demo_api last_epoch)
    by (constructor; reflexivity).
  destruct (reinit_scheduler_properties_rebuilds demo_api last_epoch
              [sgd 1; sgd 2] [{| scheduler := 1 |}] demo_heap 1 _LRScheduler Hapi)
    as (_ & Hr & Hk & Ho).
  - apply list_elem_of_In. left. reflexivity.
  - apply list_elem_of_In. left. reflexivity.
  - reflexivity.
  - split; [exact Hr|]. split; [exact Hk|exact Ho].
Defined.

(** C5, as the claim has it, fails: in automatic optimization with two
    optimizers and no explicit optimizer, what [amp.scale_loss] receives is
    not one of the trainer's optimizers; it is the list of both. *)
Lemma backward_sole_optimizer_counterexample :
  ~ exists o rest,
      o ∈ accelerator_optimizers demo_world /\
      trace (snd (backward demo_env (LightningModule true) 3%Z None 0%Z demo_world)) =
        trace demo_world ++ CallScaleLoss 3%Z (OneOptimizer o) :: rest.
Proof.
  intros (o & rest & _ & H). vm_compute in H. discriminate H.
Qed.

(** * Further properties of the plugin *)

Section Outcomes.

Context {X Tensor Any : Type}.
Variable env : @Externals X Tensor Any.

Implicit Types (w : @World X Tensor Any) (model : Model) (optimizer : Optimizer).

(** ** Construction *)

(** X1: with apex available, constructing the plugin makes one call, the base
    constructor.  When it returns, the level is the one given, the flag is
    false whatever it was, and the trainer is untouched; when it raises, the
    exception is passed on and neither attribute has been assigned. *)
Theorem init_with_apex (level : string) w :
  let r := __init__ true env level w in
  trace (snd r) = trace w ++ [CallBaseInit] /\
  lightning_module (snd r) = lightning_module w /\
  accelerator_optimizers (snd r) = accelerator_optimizers w /\
  match fst (base_init env (ext w)) with
  | Ok _ => fst r = Ok tt /\ amp_level (snd r) = level /\ _connected (snd r) = false
  | Raise e =>
      fst r = Raise e /\ amp_level (snd r) = amp_level w /\
      _connected (snd r) = _connected w
  end.
Proof.
  cbv zeta. unfold __init__, bind. simpl. rewrite call_run.
  destruct (base_init env (ext w)) as [[[]|e] x]; simpl; repeat split.
Qed.

(** ** Dispatch *)

(** X2: when [amp.initialize] raises on a plugin that is not connected,
    [dispatch] passes the exception on without calling the base dispatch; the
    flag stays false and the trainer's optimizers stay as they were, so the
    next [dispatch] calls [amp.initialize] again, on the same arguments. *)
Theorem dispatch_initialize_raises w (e : Exn) (x1 : X) :
  _connected w = false ->
  amp_initialize env (lightning_module w) (accelerator_optimizers w)
    (amp_level w) (ext w) = (Raise e, x1) ->
  let ev := CallInitialize (lightning_module w) (accelerator_optimizers w) (amp_level w) in
  let w1 := set_ext x1 (log ev w) in
  dispatch env w = (Raise e, w1) /\
  exists rest, trace (snd (dispatch env w1)) = trace w ++ [ev; ev] ++ rest.
Proof.
  intros Hc Hi ev w1.
  assert (Hfirst : dispatch env w = (Raise e, w1)).
  { unfold dispatch, bind, get. rewrite Hc. simpl.
    rewrite call_run. fold ev. rewrite Hi. reflexivity. }
  split; [exact Hfirst|].
  unfold dispatch, bind, get. subst w1. simpl. rewrite Hc. simpl.
  rewrite call_run. simpl.
  destruct (amp_initialize env _ _ _ x1) as [[[m opts]|e'] x2]; simpl.
  - rewrite call_run. simpl.
    exists [CallBaseDispatch]. rewrite <- !app_assoc. reflexivity.
  - exists []. rewrite <- !app_assoc. reflexivity.
Qed.

(** X3: when [amp.initialize] returns and the base dispatch then raises,
    [dispatch] passes the exception on, but the plugin is connected and the
    trainer holds the new optimizers; the next [dispatch] makes no
    [amp.initialize] call and keeps those optimizers. *)
Theorem dispatch_base_raises w (m : Model) (opts : list Optimizer) (x1 x2 : X) (e : Exn) :
  _connected w = false ->
  amp_initialize env (lightning_module w) (accelerator_optimizers w)
    (amp_level w) (ext w) = (Ok (m, opts), x1) ->
  base_dispatch env x1 = (Raise e, x2) ->
  let ev := CallInitialize (lightning_module w) (accelerator_optimizers w) (amp_level w) in
  let w1 := snd (dispatch env w) in
  let w2 := snd (dispatch env w1) in
  fst (dispatch env w) = Raise e /\
  _connected w1 = true /\
  accelerator_optimizers w1 = opts /\
  trace w1 = trace w ++ [ev; CallBaseDispatch] /\
  trace w2 = trace w1 ++ [CallBaseDispatch] /\
  accelerator_optimizers w2 = opts /\
  _connected w2 = true.
Proof.
  intros Hc Hi Hb ev w1 w2.
  assert (Hfirst : dispatch env w =
            (Raise e,
             set_ext x2 (log CallBaseDispatch
               (snd (set_connected true
                 (snd (set_accelerator_optimizers opts (set_ext x1 (log ev w))))))))).
  { unfold dispatch, bind, get. rewrite Hc. simpl.
    rewrite call_run. fold ev. rewrite Hi. simpl.
    rewrite call_run. simpl. rewrite Hb. reflexivity. }
  subst w2 w1. rewrite Hfirst. cbn [fst snd].
  rewrite dispatch_connected by reflexivity. simpl.
  rewrite <- !app_assoc. repeat split.
Qed.

(** ** Backward *)

Lemma backward_run (automatic_optimization : bool) (closure_loss : Tensor)
    (optimizer : option Optimizer) (args : Any) w :
  let model := LightningModule automatic_optimization in
  let opt := effective_optimizer optimizer w in
  backward env model closure_loss optimizer args w =
    bind (call (CallScaleLoss closure_loss opt) (amp_scale_loss env closure_loss opt))
      (fun cm => with_ cm (fun closure_loss =>
         call (CallBaseBackward model closure_loss optimizer args)
              (base_backward env model closure_loss optimizer args))) w.
Proof.
  unfold backward, bind, effective_optimizer.
  destruct optimizer as [o|]; [destruct (opt_bool o)|]; reflexivity.
Qed.

(** X4: when [amp.scale_loss] raises, [backward] passes the exception on and
    makes no further call: the scope is not entered, the inner backward is
    not run and there is no [__exit__]. *)
Theorem backward_scale_loss_raises (automatic_optimization : bool)
    (closure_loss : Tensor) (optimizer : option Optimizer) (args : Any) w
    (e : Exn) (x1 : X) :
  let opt := effective_optimizer optimizer w in
  amp_scale_loss env closure_loss opt (ext w) = (Raise e, x1) ->
  backward env (LightningModule automatic_optimization) closure_loss optimizer args w =
    (Raise e, set_ext x1 (log (CallScaleLoss closure_loss opt) w)).
Proof.
  intros opt Hscale. rewrite backward_run. unfold bind.
  rewrite call_run. fold opt. rewrite Hscale. reflexivity.
Qed.

(** X5: when [amp.scale_loss] returns but [__enter__] raises, [backward]
    passes the exception on; the inner backward is not run and [__exit__] is
    not called. *)
Theorem backward_enter_raises (automatic_optimization : bool)
    (closure_loss : Tensor) (optimizer : option Optimizer) (args : Any) w
    (cm : ContextManager) (x1 x2 : X) (e : Exn) :
  let opt := effective_optimizer optimizer w in
  amp_scale_loss env closure_loss opt (ext w) = (Ok cm, x1) ->
  __enter__ cm x1 = (Raise e, x2) ->
  backward env (LightningModule automatic_optimization) closure_loss optimizer args w =
    (Raise e,
     set_ext x2 (log CallEnter (set_ext x1 (log (CallScaleLoss closure_loss opt) w)))).
Proof.
  intros opt Hscale Henter. rewrite backward_run. unfold bind.
  rewrite call_run. fold opt. rewrite Hscale. simpl.
  unfold with_. rewrite call_run. simpl. rewrite Henter. reflexivity.
Qed.

(** X6: when the inner backward raises inside the scope, what [backward] does
    is decided by [__exit__]: a false result lets the same exception through,
    a true result swallows it and [backward] returns, and an exception raised
    by [__exit__] itself replaces it. *)
Theorem backward_inner_raises (automatic_optimization : bool)
    (closure_loss : Tensor) (optimizer : option Optimizer) (args : Any) w
    (cm : ContextManager) (x1 x2 x3 : X) (scaled_loss : Tensor) (e : Exn) :
  let model := LightningModule automatic_optimization in
  let opt := effective_optimizer optimizer w in
  amp_scale_loss env closure_loss opt (ext w) = (Ok cm, x1) ->
  __enter__ cm x1 = (Ok scaled_loss, x2) ->
  base_backward env model scaled_loss optimizer args x2 = (Raise e, x3) ->
  fst (backward env model closure_loss optimizer args w) =
    match fst (__exit__ cm (Some e) x3) with
    | Ok false => Raise e
    | Ok true => Ok tt
    | Raise e' => Raise e'
    end.
Proof.
  intros model opt Hscale Henter Hinner. subst model. rewrite backward_run.
  unfold bind. rewrite call_run. fold opt. rewrite Hscale. simpl.
  unfold with_. rewrite call_run. simpl. rewrite Henter. simpl.
  rewrite call_run. simpl. rewrite Hinner. simpl.
  rewrite call_run. simpl.
  destruct (__exit__ cm (Some e) x3) as [[[|]|e'] x4]; reflexivity.
Qed.

(** X7: when the inner backward returns, [backward] returns unless
    [__exit__] raises, whose exception is then passed on; the result of
    [__exit__] is ignored. *)
Theorem backward_inner_returns (automatic_optimization : bool)
    (closure_loss : Tensor) (optimizer : option Optimizer) (args : Any) w
    (cm : ContextManager) (x1 x2 x3 : X) (scaled_loss : Tensor) :
  let model := LightningModule automatic_optimization in
  let opt := effective_optimizer optimizer w in
  amp_scale_loss env closure_loss opt (ext w) = (Ok cm, x1) ->
  __enter__ cm x1 = (Ok scaled_loss, x2) ->
  base_backward env model scaled_loss optimizer args x2 = (Ok tt, x3) ->
  fst (backward env model closure_loss optimizer args w) =
    match fst (__exit__ cm None x3) with
    | Ok _ => Ok tt
    | Raise e' => Raise e'
    end.
Proof.
  intros model opt Hscale Henter Hinner. subst model. rewrite backward_run.
  unfold bind. rewrite call_run. fold opt. rewrite Hscale. simpl.
  unfold with_. rewrite call_run. simpl. rewrite Henter. simpl.
  rewrite call_run. simpl. rewrite Hinner. simpl.
  rewrite call_run. simpl.
  destruct (__exit__ cm None x3) as [[b|e'] x4]; reflexivity.
Qed.

(** ** Optimizer step *)

(** X8: when the closure raises, [optimizer_step] passes the exception on
    after that single call: neither the post-closure hook nor the optimizer's
    step is called. *)
Theorem optimizer_step_closure_raises model optimizer (optimizer_idx : Z)
    (closure : Ext (option Any)) (kwargs : Any) w (e : Exn) (x1 : X) :
  isinstance (opt_mro optimizer) LBFGS = false ->
  closure (ext w) = (Raise e, x1) ->
  optimizer_step env model optimizer optimizer_idx closure kwargs w =
    (Raise e, set_ext x1 (log CallClosure w)).
Proof.
  intros Hopt Hclosure. unfold optimizer_step, bind. rewrite Hopt.
  rewrite call_run, Hclosure. reflexivity.
Qed.

(** X9: when the post-closure hook raises, [optimizer_step] passes the
    exception on and the optimizer's step is not called, whatever the model
    and whatever the closure returned. *)
Theorem optimizer_step_hook_raises model optimizer (optimizer_idx : Z)
    (closure : Ext (option Any)) (kwargs : Any) w
    (closure_result : option Any) (x1 x2 : X) (e : Exn) :
  isinstance (opt_mro optimizer) LBFGS = false ->
  closure (ext w) = (Ok closure_result, x1) ->
  _after_closure env model optimizer optimizer_idx x1 = (Raise e, x2) ->
  optimizer_step env model optimizer optimizer_idx closure kwargs w =
    (Raise e,
     set_ext x2 (log (CallAfterClosure model optimizer optimizer_idx)
                   (set_ext x1 (log CallClosure w)))).
Proof.
  intros Hopt Hclosure Hafter. unfold optimizer_step, bind. rewrite Hopt.
  rewrite (call_ok _ _ _ _ _ Hclosure).
  rewrite call_run. simpl. rewrite Hafter. reflexivity.
Qed.

(** X10: when the closure and the hook return, the outcome of
    [optimizer_step] is the outcome of the optimizer's step when the step is
    called, so an exception raised by the step is passed on; when the step is
    left out (a LightningModule in automatic optimization whose closure
    returned [None]) it returns normally. *)
Theorem optimizer_step_result model optimizer (optimizer_idx : Z)
    (closure : Ext (option Any)) (kwargs : Any) w
    (closure_result : option Any) (x1 x2 : X) :
  isinstance (opt_mro optimizer) LBFGS = false ->
  closure (ext w) = (Ok closure_result, x1) ->
  _after_closure env model optimizer optimizer_idx x1 = (Ok tt, x2) ->
  fst (optimizer_step env model optimizer optimizer_idx closure kwargs w) =
    match model, closure_result with
    | LightningModule true, None => Ok tt
    | _, _ => fst (step env optimizer kwargs x2)
    end.
Proof.
  intros Hopt Hclosure Hafter. unfold optimizer_step, bind. rewrite Hopt.
  rewrite (call_ok _ _ _ _ _ Hclosure).
  rewrite (call_ok _ _ _ () x2) by exact Hafter.
  destruct model as [[|]|], closure_result as [v|]; simpl;
    rewrite ?call_run; reflexivity.
Qed.

Lemma closure_calls_app (tr1 tr2 : list (@Event Tensor Any)) :
  closure_calls (tr1 ++ tr2) = closure_calls tr1 + closure_calls tr2.
Proof. unfold closure_calls. rewrite filter_app, length_app. reflexivity. Qed.

Lemma step_calls_app (tr1 tr2 : list (@Event Tensor Any)) :
  step_calls (tr1 ++ tr2) = step_calls tr1 + step_calls tr2.
Proof. unfold step_calls. rewrite filter_app, length_app. reflexivity. Qed.

(** X11: for an optimizer that is not LBFGS, [optimizer_step] calls the
    closure exactly once and the optimizer's step at most once, on every
    path, whether the calls return or raise. *)
Theorem optimizer_step_calls_closure_once model optimizer (optimizer_idx : Z)
    (closure : Ext (option Any)) (kwargs : Any) w :
  isinstance (opt_mro optimizer) LBFGS = false ->
  let w' := snd (optimizer_step env model optimizer optimizer_idx closure kwargs w) in
  closure_calls (trace w') = S (closure_calls (trace w)) /\
  step_calls (trace w') <= S (step_calls (trace w)).
Proof.
  intros Hopt w'. subst w'. unfold optimizer_step, bind. rewrite Hopt.
  rewrite call_run.
  destruct (closure (ext w)) as [[closure_result|e] x1]; simpl.
  - rewrite call_run. simpl.
    destruct (_after_closure env model optimizer optimizer_idx x1) as [[[]|e] x2]; simpl.
    + destruct (match model with
                | LightningModule automatic_optimization =>
                    negb automatic_optimization
                    || negb (bool_decide (closure_result = None))
                | TorchModule => true
                end).
      * rewrite call_run. simpl.
        rewrite !closure_calls_app, !step_calls_app. simpl.
        unfold closure_calls, step_calls. simpl. lia.
      * simpl. rewrite !closure_calls_app, !step_calls_app.
        unfold closure_calls, step_calls. simpl. lia.
    + rewrite !closure_calls_app, !step_calls_app.
      unfold closure_calls, step_calls. simpl. lia.
  - rewrite !closure_calls_app, !step_calls_app.
    unfold closure_calls, step_calls. simpl. lia.
Qed.

(** ** Checkpoints *)

(** X12: [on_load_checkpoint] looks at no other entry: two checkpoints with
    the same entry (or none) under [amp_scaling_state] are loaded alike. *)
Theorem on_load_checkpoint_reserved_key_only (c1 c2 : gmap string Any) w :
  c1 !! "amp_scaling_state" = c2 !! "amp_scaling_state" ->
  on_load_checkpoint env c1 w = on_load_checkpoint env c2 w.
Proof.
  intros Hkey. unfold on_load_checkpoint. rewrite Hkey. reflexivity.
Qed.

(** X13: when [amp.state_dict()] returns, the saved checkpoint has the blob
    under [amp_scaling_state], replacing any older entry, every other entry
    is as it was, and the keys are those of the checkpoint plus that key. *)
Theorem on_save_checkpoint_keeps_entries (checkpoint : gmap string Any) w
    (blob : Any) (x1 : X) :
  amp_state_dict env (ext w) = (Ok blob, x1) ->
  exists saved w1,
    on_save_checkpoint env checkpoint w = (Ok saved, w1) /\
    saved !! "amp_scaling_state" = Some blob /\
    (forall k, k <> "amp_scaling_state" -> saved !! k = checkpoint !! k) /\
    dom saved = {["amp_scaling_state"]} ∪ dom checkpoint.
Proof.
  intros Hget. eexists _, _. split.
  { unfold on_save_checkpoint, bind.
    rewrite (call_ok _ _ _ _ _ Hget). reflexivity. }
  split; [apply lookup_insert_eq|]. split.
  - intros k Hk. apply lookup_insert_ne. congruence.
  - apply dom_insert_L.
Qed.

(** X14: loading what a save produced from any checkpoint, in any later
    world, hands [amp.load_state_dict] the blob that [amp.state_dict()]
    returned at the save, also when the checkpoint already held an older
    blob. *)
Theorem on_load_checkpoint_after_save (checkpoint : gmap string Any) w
    (blob : Any) (x1 : X) :
  amp_state_dict env (ext w) = (Ok blob, x1) ->
  exists saved w1,
    on_save_checkpoint env checkpoint w = (Ok saved, w1) /\
    forall w2,
      on_load_checkpoint env saved w2 =
        (fst (amp_load_state_dict env blob (ext w2)),
         set_ext (snd (amp_load_state_dict env blob (ext w2)))
           (log (CallLoadStateDict blob) w2)).
Proof.
  intros Hget. eexists _, _. split.
  { unfold on_save_checkpoint, bind.
    rewrite (call_ok _ _ _ _ _ Hget). reflexivity. }
  intros w2. unfold on_load_checkpoint. rewrite lookup_insert_eq.
  apply call_run.
Qed.

End Outcomes.

(** ** The message of the LBFGS error *)

Lemma string_app_inv_tail (s1 s2 t : string) :
  s1 +:+ t = s2 +:+ t -> s1 = s2.
Proof.
  assert (Hlen : forall a b : string,
            String.length (a +:+ b) = String.length a + String.length b).
  { intros a b. induction a as [|c a IH]; simpl; [reflexivity|]. rewrite IH. reflexivity. }
  revert s2. induction s1 as [|c1 s1 IH]; intros [|c2 s2] H; simpl in H.
  - reflexivity.
  - apply (f_equal String.length) in H. rewrite !Hlen in H. simpl in H. lia.
  - apply (f_equal String.length) in H. rewrite !Hlen in H. simpl in H. lia.
  - injection H as -> H. f_equal. apply IH. exact H.
Qed.

(** X15: the message of the LBFGS error determines the optimizer index:
    different indices give different messages. *)
Theorem lbfgs_message_identifies_index (i j : Z) :
  i <> j -> lbfgs_message i <> lbfgs_message j.
Proof.
  unfold lbfgs_message. intros Hne H. apply Hne.
  apply (inj (String.app _)) in H.
  apply string_app_inv_tail in H.
  exact (inj pretty _ _ H).
Qed.

(** * Further properties of the scheduler repair *)

Section SchedulerOutcomes.

Context {Sched SchedState : Type}.
Variable api : @SchedulerAPI Sched SchedState.

Implicit Types (h : @Heap Sched) (r : nat) (s : Sched).

Lemma iter_fixed {A} (f : A -> A) (a : A) (n : nat) :
  f a = a -> Nat.iter n f a = a.
Proof. intros Hf. induction n as [|n IH]; simpl; [reflexivity|]. rewrite IH. exact Hf. Qed.

Lemma occurrences_unlisted r (schedulers : list SchedulerConfig) :
  r ∉ scheduler <$> schedulers -> occurrences r schedulers = 0.
Proof.
  unfold occurrences. induction schedulers as [|cfg rest IH]; simpl; [reflexivity|].
  intros Hnot. rewrite filter_cons.
  destruct (decide (scheduler cfg = r)) as [Heq|Hne].
  - exfalso. apply Hnot. rewrite Heq. left.
  - apply IH. intros Hin. apply Hnot. right. exact Hin.
Qed.

(** X16: a scheduler object is left exactly as it was when it is not listed,
    or its optimizer is none of the given optimizers, or its class has no
    recognized base scheduler class; in particular nothing changes with no
    optimizers or no schedulers. *)
Theorem reinit_scheduler_properties_untouched (optimizers : list Optimizer)
    (schedulers : list SchedulerConfig) h r :
  r ∉ scheduler <$> schedulers \/
  sched_optimizer api (h r) ∉ optimizers \/
  nearest_base (sched_mro api (h r)) = None ->
  reinit_scheduler_properties api optimizers schedulers h r = h r.
Proof.
  intros Hcase. rewrite reinit_scheduler_properties_run.
  destruct Hcase as [Hunlisted|[Hnomatch|Hnobase]].
  - rewrite (occurrences_unlisted _ _ Hunlisted). reflexivity.
  - apply iter_fixed. unfold repair. rewrite decide_False by exact Hnomatch.
    reflexivity.
  - apply iter_fixed. unfold repair. rewrite Hnobase.
    destruct (decide (_ ∈ optimizers)); reflexivity.
Qed.

Lemma repair_preserves (step_count : Sched -> Z) (optimizers : list Optimizer) s :
  scheduler_contract api step_count ->
  step_count (repair api optimizers s) = step_count s /\
  sched_optimizer api (repair api optimizers s) = sched_optimizer api s /\
  sched_mro api (repair api optimizers s) = sched_mro api s.
Proof.
  intros Hapi. unfold repair.
  destruct (decide (_ ∈ optimizers)); [|auto].
  destruct (nearest_base (sched_mro api s)) as [base|]; [|auto].
  unfold rebuild.
  rewrite (load_restores_count _ _ Hapi).
  rewrite (load_keeps_optimizer _ _ Hapi), (init_binds _ _ Hapi).
  rewrite (load_keeps_class _ _ Hapi), (init_keeps_class _ _ Hapi). auto.
Qed.

(** X17: under the contract of torch's schedulers, the repair changes no
    scheduler's step count, bound optimizer or class, for any lists of
    optimizers and schedulers and any object of the heap, listed or not. *)
Theorem reinit_scheduler_properties_preserves (step_count : Sched -> Z)
    (optimizers : list Optimizer) (schedulers : list SchedulerConfig) h r :
  scheduler_contract api step_count ->
  let h' := reinit_scheduler_properties api optimizers schedulers h in
  step_count (h' r) = step_count (h r) /\
  sched_optimizer api (h' r) = sched_optimizer api (h r) /\
  sched_mro api (h' r) = sched_mro api (h r).
Proof.
  intros Hapi h'. subst h'. rewrite reinit_scheduler_properties_run.
  induction (occurrences r schedulers) as [|k IH]; simpl; [auto|].
  destruct IH as (Hc & Ho & Hm).
  destruct (repair_preserves step_count optimizers
              (Nat.iter k (repair api optimizers) (h r)) Hapi) as (Hc' & Ho' & Hm').
  rewrite Hc', Ho', Hm'. auto.
Qed.

Lemma occurrences_Permutation r (l1 l2 : list SchedulerConfig) :
  l1 ≡ₚ l2 -> occurrences r l1 = occurrences r l2.
Proof. intros Hp. unfold occurrences. rewrite Hp. reflexivity. Qed.

Lemma repair_same_members (o1 o2 : list Optimizer) s :
  (forall o, o ∈ o1 <-> o ∈ o2) -> repair api o1 s = repair api o2 s.
Proof.
  intros Hmem. unfold repair.
  destruct (decide (sched_optimizer api s ∈ o1)) as [H1|H1];
    destruct (decide (sched_optimizer api s ∈ o2)) as [H2|H2]; try reflexivity.
  - exfalso. apply H2, Hmem, H1.
  - exfalso. apply H1, Hmem, H2.
Qed.

(** X18: the result does not depend on the order of the schedulers, nor on
    the order or repetitions of the optimizers: permuting the scheduler list
    and replacing the optimizer list by one with the same members gives the
    same heap. *)
Theorem reinit_scheduler_properties_order_irrelevant
    (o1 o2 : list Optimizer) (l1 l2 : list SchedulerConfig) h r :
  l1 ≡ₚ l2 ->
  (forall o, o ∈ o1 <-> o ∈ o2) ->
  reinit_scheduler_properties api o1 l1 h r =
  reinit_scheduler_properties api o2 l2 h r.
Proof.
  intros Hperm Hmem. rewrite !reinit_scheduler_properties_run.
  rewrite (occurrences_Permutation r l1 l2 Hperm).
  induction (occurrences r l2) as [|k IH]; simpl; [reflexivity|].
  rewrite IH. apply repair_same_members. exact Hmem.
Qed.

(** X19: repairing a list of schedulers in two parts, one after the other,
    is repairing the whole list. *)
Theorem reinit_scheduler_properties_app (optimizers : list Optimizer)
    (l1 l2 : list SchedulerConfig) h :
  reinit_scheduler_properties api optimizers (l1 ++ l2) h =
  reinit_scheduler_properties api optimizers l2
    (reinit_scheduler_properties api optimizers l1 h).
Proof.
  revert h. induction l1 as [|cfg rest IH]; intros h; simpl; [reflexivity|].
  apply IH.
Qed.

End SchedulerOutcomes.

(** * The further properties on the concrete collaborators *)

Lemma dispatch_initialize_raises_witness :
  let r := dispatch faulty_env (faulty_world 0) in
  fst r = Raise (ExternalError "RuntimeError") /\
  _connected (snd r) = false /\
  accelerator_optimizers (snd r) = [sgd 1; sgd 2].
Proof.
  pose proof (dispatch_initialize_raises faulty_env (faulty_world 0)
                (ExternalError "RuntimeError") (ext (faulty_world 0))
                eq_refl eq_refl) as H.
  cbv zeta in H. destruct H as [H _]. cbv zeta. rewrite H.
  repeat split.
Defined.

Lemma dispatch_base_raises_witness :
  let w1 := snd (dispatch faulty_env (faulty_world 1)) in
  fst (dispatch faulty_env (faulty_world 1)) = Raise (ExternalError "RuntimeError") /\
  _connected w1 = true /\
  accelerator_optimizers w1 = [demo_wrap (sgd 1); demo_wrap (sgd 2)] /\
  initialize_calls (trace (snd (dispatch faulty_env w1))) = 1.
Proof.
  pose proof (dispatch_base_raises faulty_env (faulty_world 1) (LightningModule true)
                [demo_wrap (sgd 1); demo_wrap (sgd 2)]
                (ext (faulty_world 1)) (ext (faulty_world 1))
                (ExternalError "RuntimeError") eq_refl eq_refl eq_refl) as H.
  cbv zeta in H. destruct H as (H1 & H2 & H3 & H4 & H5 & _).
  cbv zeta. split; [exact H1|]. split; [exact H2|]. split; [exact H3|].
  rewrite H5, H4. reflexivity.
Defined.

Lemma backward_scale_loss_raises_witness :
  backward faulty_env (LightningModule true) 3%Z (Some (sgd 1)) 0%Z (faulty_world 2) =
    (Raise (ExternalError "RuntimeError"),
     log (CallScaleLoss 3%Z (OneOptimizer (sgd 1))) (faulty_world 2)).
Proof.
  exact (backward_scale_loss_raises faulty_env true 3%Z (Some (sgd 1)) 0%Z
           (faulty_world 2) (ExternalError "RuntimeError") (ext (faulty_world 2))
           eq_refl).
Defined.

Lemma backward_enter_raises_witness :
  let r := backward faulty_env (LightningModule true) 3%Z None 0%Z (faulty_world 3) in
  fst r = Raise (ExternalError "RuntimeError") /\
  trace (snd r) = [CallScaleLoss 3%Z (OptimizerList [sgd 1; sgd 2]); CallEnter].
Proof.
  pose proof (backward_enter_raises faulty_env true 3%Z None 0%Z (faulty_world 3)
                (faulty_context_manager 3) (ext (faulty_world 3)) (ext (faulty_world 3))
                (ExternalError "RuntimeError") eq_refl eq_refl) as H.
  cbv zeta in H. cbv zeta. rewrite H. split; reflexivity.
Defined.

Lemma backward_inner_raises_witness :
  fst (backward faulty_env (LightningModule true) 3%Z (Some (sgd 1)) 1%Z (faulty_world 4))
    = Ok tt /\
  fst (backward faulty_env (LightningModule true) 3%Z (Some (sgd 1)) 1%Z (faulty_world 20))
    = Raise (ExternalError "RuntimeError").
Proof.
  split.
  - exact (backward_inner_raises faulty_env true 3%Z (Some (sgd 1)) 1%Z (faulty_world 4)
             (faulty_context_manager 3) (ext (faulty_world 4)) (ext (faulty_world 4))
             (ext (faulty_world 4)) 3%Z (ExternalError "RuntimeError")
             eq_refl eq_refl eq_refl).
  - exact (backward_inner_raises faulty_env true 3%Z (Some (sgd 1)) 1%Z (faulty_world 20)
             (faulty_context_manager 3) (ext (faulty_world 20)) (ext (faulty_world 20))
             (ext (faulty_world 20)) 3%Z (ExternalError "RuntimeError")
             eq_refl eq_refl eq_refl).
Defined.

Lemma backward_inner_returns_witness :
  fst (backward faulty_env (LightningModule true) 3%Z (Some (sgd 1)) 0%Z (faulty_world 5))
    = Raise (ExternalError "OverflowError").
Proof.
  exact (backward_inner_returns faulty_env true 3%Z (Some (sgd 1)) 0%Z (faulty_world 5)
           (faulty_context_manager 3) (ext (faulty_world 5)) (ext (faulty_world 5))
           (ext (faulty_world 5)) 3%Z eq_refl eq_refl eq_refl).
Defined.

Lemma optimizer_step_closure_raises_witness :
  optimizer_step demo_env TorchModule (sgd 1) 0
      (fun x => (Raise (ExternalError "ValueError"), x)) 0%Z demo_world =
    (Raise (ExternalError "ValueError"), log CallClosure demo_world).
Proof.
  exact (optimizer_step_closure_raises demo_env TorchModule (sgd 1) 0
           (fun x => (Raise (ExternalError "ValueError"), x)) 0%Z demo_world
           (ExternalError "ValueError") (ext demo_world) eq_refl eq_refl).
Defined.

Lemma optimizer_step_hook_raises_witness :
  let r := optimizer_step faulty_env TorchModule (sgd 1) 0
             (fun x => (Ok (Some 5%Z), x)) 0%Z (faulty_world 6) in
  fst r = Raise (ExternalError "RuntimeError") /\
  trace (snd r) = [CallClosure; CallAfterClosure TorchModule (sgd 1) 0].
Proof.
  pose proof (optimizer_step_hook_raises faulty_env TorchModule (sgd 1) 0
                (fun x => (Ok (Some 5%Z), x)) 0%Z (faulty_world 6) (Some 5%Z)
                (ext (faulty_world 6)) (ext (faulty_world 6))
                (ExternalError "RuntimeError") eq_refl eq_refl eq_refl) as H.
  cbv zeta. rewrite H. split; reflexivity.
Defined.

Lemma optimizer_step_result_witness :
  fst (optimizer_step faulty_env (LightningModule false) (sgd 1) 0
         (fun x => (Ok None, x)) 0%Z (faulty_world 7))
    = Raise (ExternalError "RuntimeError").
Proof.
  exact (optimizer_step_result faulty_env (LightningModule false) (sgd 1) 0
           (fun x => (Ok None, x)) 0%Z (faulty_world 7) None
           (ext (faulty_world 7)) (ext (faulty_world 7)) eq_refl eq_refl eq_refl).
Defined.

Lemma optimizer_step_calls_closure_once_witness :
  let w' := snd (optimizer_step faulty_env (LightningModule true) (sgd 1) 0
                   (fun x => (Ok (Some 5%Z), x)) 0%Z (faulty_world 7)) in
  closure_calls (trace w') = 1 /\ step_calls (trace w') <= 1.
Proof.
  exact (optimizer_step_calls_closure_once faulty_env (LightningModule true) (sgd 1) 0
           (fun x => (Ok (Some 5%Z), x)) 0%Z (faulty_world 7) eq_refl).
Defined.

Lemma on_load_checkpoint_reserved_key_only_witness :
  on_load_checkpoint demo_env {["amp_scaling_state" := 64%Z]} demo_world =
  on_load_checkpoint demo_env
    (<["epoch" := 3%Z]> {["amp_scaling_state" := 64%Z]}) demo_world.
Proof.
  apply on_load_checkpoint_reserved_key_only. reflexivity.
Defined.

Lemma on_save_checkpoint_keeps_entries_witness :
  exists saved w1,
    on_save_checkpoint demo_env
      (<["epoch" := 3%Z]> {["amp_scaling_state" := 1%Z]}) demo_world = (Ok saved, w1) /\
    saved !! "amp_scaling_state" = Some 128%Z /\
    saved !! "epoch" = Some 3%Z.
Proof.
  destruct (on_save_checkpoint_keeps_entries demo_env
              (<["epoch" := 3%Z]> {["amp_scaling_state" := 1%Z]}) demo_world
              128%Z (ext demo_world) eq_refl)
    as (saved & w1 & Hsave & Hkey & Hother & _).
  exists saved, w1. split; [exact Hsave|]. split; [exact Hkey|].
  rewrite Hother by discriminate. reflexivity.
Defined.

Lemma on_load_checkpoint_after_save_witness :
  exists saved w1,
    on_save_checkpoint demo_env {["amp_scaling_state" := 1%Z]} demo_world
      = (Ok saved, w1) /\
    ext (snd (on_load_checkpoint demo_env saved (faulty_world 2))) =
      {| scale_factor := 128; grads_scaled := false |}.
Proof.
  destruct (on_load_checkpoint_after_save demo_env {["amp_scaling_state" := 1%Z]}
              demo_world 128%Z (ext demo_world) eq_refl)
    as (saved & w1 & Hsave & Hload).
  exists saved, w1. split; [exact Hsave|]. rewrite Hload. reflexivity.
Defined.

Lemma lbfgs_message_identifies_index_witness :
  lbfgs_message 1 <> lbfgs_message 11.
Proof.
  apply lbfgs_message_identifies_index. lia.
Defined.

Lemma reinit_scheduler_properties_untouched_witness :
  reinit_scheduler_properties demo_api [sgd 1; sgd 2]
    [{| scheduler := 3 |}; {| scheduler := 1 |}] demo_heap 3 = demo_heap 3.
Proof.
  apply reinit_scheduler_properties_untouched. right. left.
  intros Hin. apply list_elem_of_In in Hin.
  destruct Hin as [H|[H|[]]]; discriminate H.
Defined.

Lemma reinit_scheduler_properties_preserves_witness :
  let h' := reinit_scheduler_properties demo_api [sgd 1; sgd 2]
              [{| scheduler := 2 |}; {| scheduler := 1 |}; {| scheduler := 2 |}]
              demo_heap in
  last_epoch (h' 2) = 7%Z /\ demo_optimizer (h' 2) = sgd 2 /\ demo_mro (h' 2) = step_lr.
Proof.
  apply (reinit_scheduler_properties_preserves demo_api last_epoch).
  constructor; reflexivity.
Defined.

Lemma reinit_scheduler_properties_order_irrelevant_witness :
  reinit_scheduler_properties demo_api [sgd 1; sgd 2]
    [{| scheduler := 1 |}; {| scheduler := 2 |}] demo_heap 1 =
  reinit_scheduler_properties demo_api [sgd 2; sgd 1; sgd 2]
    [{| scheduler := 2 |}; {| scheduler := 1 |}] demo_heap 1.
Proof.
  apply reinit_scheduler_properties_order_irrelevant.
  - apply perm_swap.
  - intros o. rewrite !elem_of_cons, !elem_of_nil. tauto.
Defined.
